(** * Podcast growth agent: RSS ingest pipeline

    A shallow embedding of [features/rss_ingest.py]: the feed-URL resolver
    [resolve_feed_url], the Whisper wrapper [transcribe_audio] and the episode
    downloader [download_episodes_from_rss], with the properties of the
    specification proved (or refuted) against them.

    Modelling conventions.
    - A Python [str] is a list of Unicode code points ([pystr]); literals of
      the source are written [lit "..."].
    - The process state ([world]) holds the flat files, the directories, the
      lines printed so far and the collaborator calls made so far.  Writing a
      file always succeeds (an ideal file system).
    - A feed entry is the feedparser dictionary: an attribute lookup on an
      absent key ([entry.title], [entry.enclosures], [enclosure.href]) raises
      [AttributeError], as it does in the library.
    - Effectful code lives in the monad [M]: state passing plus Python
      exceptions.  [try_except] is [try: ... except Exception as e: ...].
    - The collaborators (feedparser, requests, the speech-to-text service,
      the Unicode digit class used by [re]) are parameters of the sections. *)

From Stdlib Require Import ZArith NArith Ascii String List Lia.
From stdpp Require Import base decidable option list gmap.

Set Default Proof Using "Type".
Local Open Scope N_scope.

(** ** Python strings *)

Module PyStr.

Abbreviation pystr := (list N).

Definition chr (a : ascii) : N := N_of_ascii a.

(** A string literal of the source (ASCII text). *)
Definition lit (s : string) : pystr := map chr (list_ascii_of_string s).
Arguments lit s%_string.
Arguments chr : simpl never.
Arguments lit : simpl never.

(** Truthiness of a [str]: non-empty. *)
Definition truthy (s : pystr) : bool :=
  match s with [] => false | _ :: _ => true end.

(** [x or y] on strings. *)
Definition py_or (x y : pystr) : pystr := if truthy x then x else y.

(** [s.startswith(p)] *)
Fixpoint startswith (s p : pystr) {struct p} : bool :=
  match p, s with
  | [], _ => true
  | _ :: _, [] => false
  | a :: p', b :: s' => (a =? b) && startswith s' p'
  end.

(** [p in s]: [p] occurs as a contiguous substring of [s]. *)
Fixpoint py_in (p s : pystr) : bool :=
  startswith s p ||
  match s with
  | [] => false
  | _ :: s' => py_in p s'
  end.

(** [s.endswith(p)] *)
Definition endswith (s p : pystr) : bool := startswith (rev s) (rev p).

(** [s.replace(old, new)] for one-character [old] and [new]. *)
Definition replace (old new : N) (s : pystr) : pystr :=
  map (fun c => if c =? old then new else c) s.

(** Declarative counterparts. *)
Definition substring (p s : pystr) : Prop := exists a b, s = a ++ p ++ b.
Definition has_suffix (p s : pystr) : Prop := exists a, s = a ++ p.

End PyStr.
Import PyStr.

(** ** World, exceptions and the effect monad *)

(** A Python exception (an instance of [Exception]); [exn_str] is [str(e)]. *)
Record exn := Exn { exn_str : pystr }.

Inductive result (A : Type) :=
| Ok (a : A)
| Raise (e : exn).
Arguments Ok {A} a.
Arguments Raise {A} e.

(** What a file holds: text written through an encoding, or raw bytes. *)
Inductive file_content :=
| TextFile (encoding : pystr) (text : pystr)
| BinaryFile (bytes : list N).

(** Calls made to the network collaborators. *)
Inductive call :=
| CallGet (url : pystr)
| CallWhisper (file_path : pystr).

(** The lines the program prints, one constructor per [print] of the source. *)
Inductive message :=
| MsgNoAppleId
| MsgUnsupported
| MsgScraped (transcript_path : pystr)
| MsgDownloading (title : pystr)
| MsgSaved (audio_path : pystr)
| MsgWhisperSaved (transcript_path : pystr)
| MsgWhisperError (title : pystr) (e : pystr)
| MsgNoAudio (title : pystr)
| MsgNotResolved.

Record world := World {
  files : gmap pystr file_content;
  dirs : gset pystr;
  stdout : list message;
  calls : list call
}.

Definition M (A : Type) : Type := world -> result A * world.

Definition ret {A} (a : A) : M A := fun w => (Ok a, w).

Definition bind {A B} (m : M A) (k : A -> M B) : M B :=
  fun w =>
    match m w with
    | (Ok a, w') => k a w'
    | (Raise e, w') => (Raise e, w')
    end.

Definition try_except {A} (body : M A) (handler : exn -> M A) : M A :=
  fun w =>
    match body w with
    | (Ok a, w') => (Ok a, w')
    | (Raise e, w') => handler e w'
    end.

Declare Scope py_scope.
Delimit Scope py_scope with py.
Notation "x <- m ;; k" := (bind m (fun x => k))
  (at level 100, m at next level, right associativity) : py_scope.
Notation "m ;; k" := (bind m (fun _ => k))
  (at level 100, right associativity) : py_scope.
Local Open Scope py_scope.

(** [for x in xs: body(x)] *)
Fixpoint for_each {A} (xs : list A) (body : A -> M unit) : M unit :=
  match xs with
  | [] => ret tt
  | x :: xs' => body x ;; for_each xs' body
  end.

(** [print(...)] *)
Definition print (m : message) : M unit :=
  fun w => (Ok tt, World (files w) (dirs w) (stdout w ++ [m]) (calls w)).

(** [with open(path, "w", encoding=enc) as f: f.write(text)] *)
Definition write_text (path enc text : pystr) : M unit :=
  fun w => (Ok tt, World (<[path := TextFile enc text]> (files w)) (dirs w) (stdout w) (calls w)).

(** [with open(path, "wb") as f: f.write(bytes)] *)
Definition write_bytes (path : pystr) (bytes : list N) : M unit :=
  fun w => (Ok tt, World (<[path := BinaryFile bytes]> (files w)) (dirs w) (stdout w) (calls w)).

(** [os.makedirs(d, exist_ok=True)] *)
Definition makedirs (d : pystr) : M unit :=
  fun w => (Ok tt, World (files w) ({[ d ]} ∪ dirs w) (stdout w) (calls w)).

(** [os.path.join(a, b)] (POSIX). *)
Definition os_path_join (a b : pystr) : pystr :=
  if startswith b (lit "/") then b
  else if negb (truthy a) || endswith a (lit "/") then a ++ b
  else a ++ lit "/" ++ b.

(** The text of each printed line. *)
Definition render (m : message) : pystr :=
  match m with
  | MsgNoAppleId => [0x26A0; 0xFE0F] ++ lit " Could not extract Apple podcast ID."
  | MsgUnsupported => [0x26A0; 0xFE0F] ++ lit " Unsupported URL format."
  | MsgScraped p => [0x1F4DD] ++ lit " Transcript scraped and saved to " ++ p
  | MsgDownloading t => [0x1F3A7] ++ lit " Downloading audio: " ++ t
  | MsgSaved p => [0x2705] ++ lit " Saved to " ++ p
  | MsgWhisperSaved p => [0x1F4DD] ++ lit " Whisper transcript saved to " ++ p
  | MsgWhisperError t e => [0x26A0; 0xFE0F] ++ lit " Whisper error for " ++ t ++ lit ": " ++ e
  | MsgNoAudio t => [0x274C] ++ lit " No audio file found for: " ++ t
  | MsgNotResolved => [0x274C] ++ lit " Could not resolve to a valid RSS feed."
  end.

(** ** RSS resolver *)

Section Resolver.

(** The class [\d] of Python's [re] on [str] patterns (Unicode decimal digits). *)
Variable isdigit : N -> bool.

(** The longest run of digits at the front of [s]: what [\d+] consumes. *)
Fixpoint take_digits (s : pystr) : pystr :=
  match s with
  | c :: s' => if isdigit c then c :: take_digits s' else []
  | [] => []
  end.

(** [re.match(r'id(\d+)', s)]: group 1 of a match anchored at the front. *)
Definition re_match_id (s : pystr) : option pystr :=
  match s with
  | i :: d :: s' =>
      if (i =? chr "i") && (d =? chr "d") then
        match take_digits s' with
        | [] => None
        | ds => Some ds
        end
      else None
  | _ => None
  end.

(** [re.search(r'id(\d+)', s)]: group 1 of the leftmost match. *)
Fixpoint re_search_id (s : pystr) : option pystr :=
  match re_match_id s with
  | Some ds => Some ds
  | None =>
      match s with
      | [] => None
      | _ :: s' => re_search_id s'
      end
  end.

Definition apple_feed (podcast_id : pystr) : pystr :=
  lit "https://podcasts.apple.com/rss/podcast/" ++ podcast_id ++ lit ".xml".

Definition resolve_feed_url (user_input : pystr) : M (option pystr) :=
  if py_in (lit "podcasts.apple.com") user_input then
    match re_search_id user_input with
    | Some podcast_id => ret (Some (apple_feed podcast_id))
    | None => print MsgNoAppleId ;; ret None
    end
  else if endswith user_input (lit ".xml") || py_in (lit "rss") user_input then
    ret (Some user_input)
  else
    print MsgUnsupported ;; ret None.

End Resolver.

(** ** Feed entries *)

(** An enclosure of an entry; [href] is [None] when the dictionary has no
    "href" key (feedparser sets the key only for a non-empty URL), and then
    [enclosure.href] raises. *)
Record enclosure := Enclosure { href : option pystr }.

(** One dictionary of an entry's [content] list; [value] is its "value" key,
    if present. *)
Record content_item := ContentItem { value : option pystr }.

(** An entry as feedparser returns it.  [title] is [None] when the item has
    no title: [entry.title] then raises.  [enclosures] is what
    [entry.enclosures] gives; feedparser computes it from the links of the
    entry, and it is [None] when the entry has no link at all (neither a link
    nor an enclosure): the lookup then raises.  feedparser creates the
    [content] list when it appends the first item to it, so the key is
    present exactly when the list is non-empty: [[]] stands for the absent
    key.  [summary] is [None] when the key is absent. *)
Record entry := Entry {
  title : option pystr;
  enclosures : option (list enclosure);
  content : list content_item;
  summary : option pystr
}.

(** The [AttributeError] of a failed attribute lookup on a feedparser
    dictionary. *)
Definition attribute_error (name : string) : exn :=
  Exn (lit "object has no attribute '" ++ lit name ++ lit "'").

(** [d.name], for a key that may be absent. *)
Definition getattr {A} (o : option A) (name : string) : result A :=
  match o with
  | Some a => Ok a
  | None => Raise (attribute_error name)
  end.

(** [d.get("value", "")] *)
Definition get_value (d : content_item) : pystr := default [] (value d).

(** [entry.get("content", [{}])[0]] *)
Definition first_content (e : entry) : content_item :=
  match content e with
  | [] => ContentItem None
  | d :: _ => d
  end.

(** [entry.get("summary", "")] *)
Definition get_summary (e : entry) : pystr := default [] (summary e).

(** [l[:stop]] *)
Definition slice_to {A} (l : list A) (stop : Z) : list A :=
  let n := Z.of_nat (length l) in
  let stop' := if (stop <? 0)%Z then Z.max (stop + n) 0 else Z.min stop n in
  take (Z.to_nat stop') l.

(** ** Whisper transcription and the episode downloader *)

Definition downloads_dir : pystr := lit "downloads".

(** [entry.title.replace(" ", "_").replace("/", "-")] *)
Definition sanitize (t : pystr) : pystr :=
  replace (chr "/") (chr "-") (replace (chr " ") (chr "_") t).

(** [entry.enclosures[0].href if entry.enclosures else None] *)
Definition audio_url_of (e : entry) : result (option pystr) :=
  match getattr (enclosures e) "enclosures" with
  | Raise ex => Raise ex
  | Ok [] => Ok None
  | Ok (enc :: _) =>
      match getattr (href enc) "href" with
      | Raise ex => Raise ex
      | Ok url => Ok (Some url)
      end
  end.

(** A computation that only returns or raises. *)
Definition of_result {A} (r : result A) : M A := fun w => (r, w).

(** Truthiness of an optional string: [None] and [""] are false. *)
Definition truthy_opt (o : option pystr) : bool :=
  match o with
  | None => false
  | Some s => truthy s
  end.

(** Line 51 of the source. *)
Definition transcript_text_of (e : entry) : pystr :=
  py_or (get_value (first_content e)) (get_summary e).

Definition transcript_path_of (title : pystr) : pystr :=
  os_path_join downloads_dir (title ++ lit "_transcript.txt").

Definition audio_path_of (title : pystr) : pystr :=
  os_path_join downloads_dir (title ++ lit ".mp3").

(** The default of the [limit] parameter. *)
Definition default_limit : Z := 3%Z.

Section Pipeline.

(** [feedparser.parse(url).entries] *)
Variable feedparser_parse : pystr -> list entry.

(** [requests.get(url).content], given the calls made before: the body, or
    the exception the request raises. *)
Variable requests_get : list call -> pystr -> result (list N).

(** [client.audio.transcriptions.create(model="whisper-1", file=f,
    response_format="text")], given the calls made before and what the file
    holds: the text, or the exception the service raises. *)
Variable whisper_create : list call -> file_content -> result pystr.

Definition http_get (url : pystr) : M (list N) :=
  fun w =>
    (requests_get (calls w) url,
     World (files w) (dirs w) (stdout w) (calls w ++ [CallGet url])).

(** [open(path, "rb")]; a missing file raises [FileNotFoundError], whose
    text shows the path between quotes. *)
Definition open_rb (path : pystr) : M file_content :=
  fun w =>
    match files w !! path with
    | Some c => (Ok c, w)
    | None =>
        (Raise (Exn (lit "[Errno 2] No such file or directory: '" ++ path ++ lit "'")), w)
    end.

Definition whisper (file_path : pystr) (audio_file : file_content) : M pystr :=
  fun w =>
    (whisper_create (calls w) audio_file,
     World (files w) (dirs w) (stdout w) (calls w ++ [CallWhisper file_path])).

Definition transcribe_audio (file_path : pystr) : M pystr :=
  audio_file <- open_rb file_path ;;
  transcript <- whisper file_path audio_file ;;
  ret transcript.

(** Lines 51 to 76: the rest of the loop body, once [title] and [audio_url]
    are there. *)
Definition resolve_transcript (title : pystr) (audio_url : option pystr) (e : entry) : M unit :=
  let transcript_text := transcript_text_of e in
  let transcript_path := transcript_path_of title in
  if truthy transcript_text then
    write_text transcript_path (lit "utf-8") transcript_text ;;
    print (MsgScraped transcript_path)
  else if truthy_opt audio_url then
    let audio_path := audio_path_of title in
    print (MsgDownloading title) ;;
    response <- http_get (default [] audio_url) ;;
    write_bytes audio_path response ;;
    print (MsgSaved audio_path) ;;
    try_except
      (whisper_transcript <- transcribe_audio audio_path ;;
       write_text transcript_path (lit "utf-8") whisper_transcript ;;
       print (MsgWhisperSaved transcript_path))
      (fun ex => print (MsgWhisperError title (exn_str ex)))
  else
    print (MsgNoAudio title).

(** The body of the [for] loop of [download_episodes_from_rss]: lines 48 and
    49, which run for every entry and outside any [try], then the rest. *)
Definition process_entry (e : entry) : M unit :=
  raw_title <- of_result (getattr (title e) "title") ;;
  let title := sanitize raw_title in
  audio_url <- of_result (audio_url_of e) ;;
  resolve_transcript title audio_url e.

(** The episodes the loop runs over: [feed.entries[:limit]]. *)
Definition episodes_of (rss_url : pystr) (limit : Z) : list entry :=
  slice_to (feedparser_parse rss_url) limit.

(** [download_episodes_from_rss(rss_url, limit=3)]; [limit = None] is the
    call without the argument.  The function has no [return]: the caller
    gets [None], here [tt]. *)
Definition download_episodes_from_rss (rss_url : pystr) (limit : option Z) : M unit :=
  let episodes := episodes_of rss_url (default default_limit limit) in
  makedirs downloads_dir ;;
  for_each episodes process_entry.

(** The [__main__] block, on the line read from standard input. *)
Definition main (isdigit : N -> bool) (user_input : pystr) : M unit :=
  rss_feed <- resolve_feed_url isdigit user_input ;;
  if truthy_opt rss_feed then
    download_episodes_from_rss (default [] rss_feed) None
  else
    print MsgNotResolved.

End Pipeline.

(** ** Vocabulary of the specification *)

(** [id] followed by the digits [ds] occurs in [s] right after [pre]. *)
Definition id_match (isdigit : N -> bool) (s pre ds post : pystr) : Prop :=
  s = pre ++ lit "id" ++ ds ++ post /\
  ds <> [] /\
  Forall (fun c => isdigit c = true) ds.

(** [ds] is the first run of digits that follows an [id]: the occurrence is
    the leftmost one and the run cannot be extended. *)
Definition first_id_digits (isdigit : N -> bool) (s ds : pystr) : Prop :=
  exists pre post,
    id_match isdigit s pre ds post /\
    (forall c, head post = Some c -> isdigit c = false) /\
    (forall pre' ds' post',
        id_match isdigit s pre' ds' post' -> (length pre <= length pre')%nat).

(** The spec's sanitization of one character of a title. *)
Definition spec_sanitize_char (c : N) : N :=
  if c =? chr " " then chr "_" else if c =? chr "/" then chr "-" else c.

(** The spec's embedded transcript of a raw entry: the value of the first
    content item if it is there and non-empty, else the summary if it is
    there and non-empty, else absent. *)
Definition spec_content_value (e : entry) : option pystr :=
  match content e with
  | [] => None
  | d :: _ => value d
  end.

Definition spec_embedded_transcript (e : entry) : option pystr :=
  match spec_content_value e with
  | Some (c :: v) => Some (c :: v)
  | _ =>
      match summary e with
      | Some (c :: s) => Some (c :: s)
      | _ => None
      end
  end.

(** The world after printing the lines [ms] and nothing else. *)
Definition printed (w : world) (ms : list message) : world :=
  World (files w) (dirs w) (stdout w ++ ms) (calls w).

(** The lines that close the processing of an episode. *)
Definition is_outcome (m : message) : bool :=
  match m with
  | MsgScraped _ | MsgWhisperSaved _ | MsgWhisperError _ _ | MsgNoAudio _ => true
  | _ => false
  end.

(** [m] is an outcome line about the episode [e]. *)
Definition reports (e : entry) (m : message) : Prop :=
  exists raw_title,
    title e = Some raw_title /\
    let t := sanitize raw_title in
    m = MsgScraped (transcript_path_of t) \/
    m = MsgWhisperSaved (transcript_path_of t) \/
    (exists reason, m = MsgWhisperError t reason) \/
    m = MsgNoAudio t.

(** The claim that the caller can read the processed episodes, in order, off
    the value the downloader returns. *)
Definition returns_outcome_sequence
    (feedparser_parse : pystr -> list entry)
    (requests_get : list call -> pystr -> result (list N))
    (whisper_create : list call -> file_content -> result pystr) : Prop :=
  exists as_sequence : unit -> list (entry * message),
    forall rss_url limit w r w',
      download_episodes_from_rss feedparser_parse requests_get whisper_create
        rss_url limit w = (Ok r, w') ->
      map fst (as_sequence r) = episodes_of feedparser_parse rss_url (default default_limit limit) /\
      Forall (fun p => reports (fst p) (snd p)) (as_sequence r).

(** Concrete collaborators and inputs for the examples. *)
Definition ascii_digit (c : N) : bool := (chr "0" <=? c) && (c <=? chr "9").

Definition empty_world : world := World ∅ ∅ [] [].

Definition no_network : list call -> pystr -> result (list N) :=
  fun _ _ => Raise (Exn (lit "connection refused")).

Definition whisper_down : list call -> file_content -> result pystr :=
  fun _ _ => Raise (Exn (lit "quota exceeded")).

Definition serve_audio : list call -> pystr -> result (list N) :=
  fun _ _ => Ok [0x49; 0x44; 0x33].

Definition episode_with_text : entry :=
  Entry (Some (lit "Ep 1/2")) (Some [Enclosure (Some (lit "http://h/a.mp3"))])
        [ContentItem (Some [])] (Some (lit "show notes")).

Definition episode_with_audio : entry :=
  Entry (Some (lit "Ep 2")) (Some [Enclosure (Some (lit "http://h/b.mp3"))]) [] None.

(** An item with a link to a page and no enclosure. *)
Definition episode_bare : entry :=
  Entry (Some (lit "Ep 3")) (Some []) [] (Some []).

(** Items with neither link nor enclosure: one with text, one without. *)
Definition text_without_links : entry :=
  Entry (Some (lit "Ep 4")) None [] (Some (lit "show notes")).

Definition bare_without_links : entry :=
  Entry (Some (lit "Ep 5")) None [] (Some []).

Definition three_episodes : pystr -> list entry :=
  fun _ => [episode_with_text; episode_with_audio; episode_bare].

(** A feed with one episode at every URL but the empty one. *)
Definition one_or_none : pystr -> list entry :=
  fun url => if truthy url then [episode_bare] else [].

(** ** Vocabulary of the further properties *)

(** The path of a file placed directly in the downloads directory. *)
Definition in_downloads (p : pystr) : Prop :=
  exists name, p = lit "downloads/" ++ name /\ chr "/" ∉ name.

(** The episodes that take the audio branch of the loop body: no embedded
    text and a usable enclosure. *)
Definition takes_audio_branch (e : entry) : bool :=
  match title e, audio_url_of e with
  | Some _, Ok audio_url => negb (truthy (transcript_text_of e)) && truthy_opt audio_url
  | _, _ => false
  end.

Definition is_get (c : call) : bool :=
  match c with CallGet _ => true | CallWhisper _ => false end.

Definition is_whisper (c : call) : bool :=
  match c with CallWhisper _ => true | CallGet _ => false end.

(** [main.py], line 62: the user message of the classification request,
    [f"Title: {title}\nSummary: {summary}\n\nWhat are the best categories
    for this episode?"]. *)
Definition newline : N := 0xA.

Definition user_prompt (title summary : pystr) : pystr :=
  lit "Title: " ++ title ++ [newline] ++ lit "Summary: " ++ summary ++
  [newline; newline] ++ lit "What are the best categories for this episode?".

(** What every step of a run keeps: directories as they are, files outside
    the downloads directory untouched, no file removed, output and call trace
    only extended. *)
Definition extends (w w' : world) : Prop :=
  dirs w' = dirs w /\
  (forall p, ~ in_downloads p -> files w' !! p = files w !! p) /\
  (forall p, is_Some (files w !! p) -> is_Some (files w' !! p)) /\
  stdout w `prefix_of` stdout w' /\
  calls w `prefix_of` calls w'.

(** More collaborators and inputs for the examples. *)
Definition whisper_up : list call -> file_content -> result pystr :=
  fun _ _ => Ok (lit "hello world").


(** * Properties *)

(** ** Strings *)

Lemma startswith_spec (p s : pystr) :
  startswith s p = true <-> exists b, s = p ++ b.
Proof.
  revert s. induction p as [|a p IH]; intros s; simpl.
  - split; [intros _; by exists s | done].
  - destruct s as [|b s]; simpl.
    + split; [done | intros [? ?]; done].
    + rewrite andb_true_iff, N.eqb_eq, IH. split.
      * intros [-> [k ->]]. by exists k.
      * intros [k Hk]. injection Hk as -> ->. eauto.
Qed.

Lemma py_in_spec (p s : pystr) : py_in p s = true <-> substring p s.
Proof.
  unfold substring. induction s as [|c s IH]; simpl.
  - rewrite orb_false_r, startswith_spec. split.
    + intros [b Hb]. by exists [], b.
    + intros [a [b Hab]]. destruct a; simpl in *; [by exists b | done].
  - rewrite orb_true_iff, startswith_spec, IH. split.
    + intros [[b Hb] | [a [b ->]]]; [by exists [], b | by exists (c :: a), b].
    + intros [a [b Hab]]. destruct a as [|c' a]; simpl in *.
      * left. by exists b.
      * right. injection Hab as -> ->. by exists a, b.
Qed.

Lemma endswith_spec (p s : pystr) : endswith s p = true <-> has_suffix p s.
Proof.
  unfold endswith, has_suffix. rewrite startswith_spec. split.
  - intros [b Hb]. exists (rev b).
    apply (f_equal (@rev N)) in Hb. by rewrite rev_involutive, rev_app_distr, rev_involutive in Hb.
  - intros [a ->]. exists (rev a). by rewrite rev_app_distr.
Qed.

Lemma py_in_false (p s : pystr) : ~ substring p s -> py_in p s = false.
Proof. rewrite <- py_in_spec. by destruct (py_in p s). Qed.

Lemma endswith_false (p s : pystr) : ~ has_suffix p s -> endswith s p = false.
Proof. rewrite <- endswith_spec. by destruct (endswith s p). Qed.

(** ** The resolver *)

Section ResolverFacts.

Variable isdigit : N -> bool.

Lemma lit_id : lit "id" = [chr "i"; chr "d"].
Proof. reflexivity. Qed.

Lemma take_digits_split (s : pystr) :
  exists post,
    s = take_digits isdigit s ++ post /\
    (forall c, head post = Some c -> isdigit c = false).
Proof.
  induction s as [|c s (post & Hs & Hpost)]; simpl.
  - exists []. split; [done | intros ? [=]].
  - destruct (isdigit c) eqn:Hc.
    + exists post. split; [simpl; by f_equal | done].
    + exists (c :: s). split; [done | by intros ? [= <-]].
Qed.

Lemma take_digits_all (s : pystr) :
  Forall (fun c => isdigit c = true) (take_digits isdigit s).
Proof.
  induction s as [|c s IH]; simpl; [constructor |].
  destruct (isdigit c) eqn:Hc; by constructor.
Qed.

Lemma take_digits_run (ds post : pystr) :
  Forall (fun c => isdigit c = true) ds ->
  (forall c, head post = Some c -> isdigit c = false) ->
  take_digits isdigit (ds ++ post) = ds.
Proof.
  intros Hds Hpost. induction Hds as [|d ds Hd _ IH]; simpl.
  - destruct post as [|c post]; simpl; [done |]. by rewrite (Hpost c).
  - by rewrite Hd, IH.
Qed.

Lemma re_match_id_Some (s ds : pystr) :
  re_match_id isdigit s = Some ds ->
  exists post,
    id_match isdigit s [] ds post /\
    (forall c, head post = Some c -> isdigit c = false).
Proof.
  destruct s as [|i [|d s]]; unfold re_match_id; try done.
  destruct ((i =? chr "i") && (d =? chr "d")) eqn:Hid; [|done].
  apply andb_true_iff in Hid as [->%N.eqb_eq ->%N.eqb_eq].
  destruct (take_digits isdigit s) as [|c ds'] eqn:Htake; [done |].
  intros [= <-].
  destruct (take_digits_split s) as (post & Hs & Hpost).
  exists post. repeat split; [| done | | done].
  - rewrite Htake in Hs. by rewrite Hs at 1.
  - rewrite <- Htake. apply take_digits_all.
Qed.

Lemma re_match_id_here (s ds post : pystr) :
  id_match isdigit s [] ds post -> is_Some (re_match_id isdigit s).
Proof.
  intros (-> & Hne & Hds). destruct Hds as [|d ds Hd _]; [done |].
  rewrite lit_id. simpl. rewrite Hd. by eexists.
Qed.

Lemma re_match_id_run (ds post : pystr) :
  ds <> [] ->
  Forall (fun c => isdigit c = true) ds ->
  (forall c, head post = Some c -> isdigit c = false) ->
  re_match_id isdigit (lit "id" ++ ds ++ post) = Some ds.
Proof.
  intros Hne Hds Hpost. rewrite lit_id. simpl.
  rewrite take_digits_run by done. by destruct ds.
Qed.

Lemma re_search_id_unfold (s : pystr) :
  re_search_id isdigit s =
  match re_match_id isdigit s with
  | Some ds => Some ds
  | None => match s with [] => None | _ :: s' => re_search_id isdigit s' end
  end.
Proof. by destruct s. Qed.

(** The search returns the first run of digits that follows an [id]. *)
Lemma re_search_id_complete (s ds : pystr) :
  first_id_digits isdigit s ds -> re_search_id isdigit s = Some ds.
Proof.
  intros (pre & post & Hm & Hmax & Hleft).
  revert s Hm Hleft. induction pre as [|c pre IH]; intros s Hm Hleft.
  - destruct Hm as (-> & Hne & Hds).
    by rewrite app_nil_l, re_search_id_unfold, re_match_id_run.
  - rewrite re_search_id_unfold.
    destruct (re_match_id isdigit s) as [ds0|] eqn:Hhere.
    + apply re_match_id_Some in Hhere as (post0 & Hm0 & _).
      apply Hleft in Hm0. simpl in Hm0. lia.
    + destruct Hm as (-> & Hne & Hds). simpl. apply IH; [done |].
      intros pre' ds' post' (Hs' & Hne' & Hds').
      assert (id_match isdigit ((c :: pre) ++ lit "id" ++ ds ++ post) (c :: pre') ds' post') as Hm'.
      { split; [| done]. simpl. f_equal. exact Hs'. }
      apply Hleft in Hm'. simpl in Hm'. lia.
Qed.

Lemma re_search_id_sound (s ds : pystr) :
  re_search_id isdigit s = Some ds -> first_id_digits isdigit s ds.
Proof.
  revert ds. induction s as [|c s IH]; intros ds; rewrite re_search_id_unfold.
  - done.
  - destruct (re_match_id isdigit (c :: s)) as [ds0|] eqn:Hhere.
    + intros [= ->]. apply re_match_id_Some in Hhere as (post & Hm & Hmax).
      exists [], post. repeat split; try apply Hm; [done |].
      intros; simpl; lia.
    + intros (pre & post & (-> & Hne & Hds) & Hmax & Hleft)%IH.
      exists (c :: pre), post. repeat split; [done .. |].
      intros [|c' pre'] ds' post' Hm'.
      * apply re_match_id_here in Hm' as [? Hm']. congruence.
      * destruct Hm' as (Hs' & Hne' & Hds'). injection Hs' as <- Hs'.
        assert (id_match isdigit (pre ++ lit "id" ++ ds ++ post) pre' ds' post') as Hm'
          by done.
        apply Hleft in Hm'. simpl. lia.
Qed.

Lemma re_search_id_None (s : pystr) :
  (forall pre ds post, ~ id_match isdigit s pre ds post) ->
  re_search_id isdigit s = None.
Proof.
  intros Hno. destruct (re_search_id isdigit s) as [ds|] eqn:Hsearch; [|done].
  apply re_search_id_sound in Hsearch as (pre & post & Hm & _). by apply Hno in Hm.
Qed.

Lemma re_search_id_finds (s pre ds post : pystr) :
  id_match isdigit s pre ds post -> is_Some (re_search_id isdigit s).
Proof.
  revert s. induction pre as [|c pre IH]; intros s Hm; rewrite re_search_id_unfold.
  - apply re_match_id_here in Hm as [ds0 ->]. by eexists.
  - destruct (re_match_id isdigit s) as [ds0|]; [by eexists |].
    destruct Hm as (-> & Hne & Hds). simpl. by apply IH.
Qed.

Lemma re_search_id_None_inv (s : pystr) :
  re_search_id isdigit s = None ->
  forall pre ds post, ~ id_match isdigit s pre ds post.
Proof.
  intros Hnone pre ds post [ds0 Hsome]%re_search_id_finds. congruence.
Qed.

End ResolverFacts.

(** C3. A locator that contains [podcasts.apple.com] and in which [id]
    followed by one or more digits occurs resolves to
    [https://podcasts.apple.com/rss/podcast/<digits>.xml], where the digits
    are the first run of digits that follows an [id]; nothing is printed and
    nothing is raised. *)
Theorem C3_resolve_apple_id
    (isdigit : N -> bool) (user_input pre ds post : pystr) (w : world) :
  substring (lit "podcasts.apple.com") user_input ->
  id_match isdigit user_input pre ds post ->
  exists digits,
    first_id_digits isdigit user_input digits /\
    resolve_feed_url isdigit user_input w =
      (Ok (Some (lit "https://podcasts.apple.com/rss/podcast/" ++ digits ++ lit ".xml")), w).
Proof.
  intros Happle%py_in_spec [digits Hsearch]%re_search_id_finds.
  exists digits. split; [by apply re_search_id_sound |].
  unfold resolve_feed_url. by rewrite Happle, Hsearch.
Qed.

Lemma C3_resolve_apple_id_witness :
  exists digits,
    first_id_digits ascii_digit
      (lit "https://podcasts.apple.com/us/podcast/foo/id123456789") digits /\
    resolve_feed_url ascii_digit
      (lit "https://podcasts.apple.com/us/podcast/foo/id123456789") empty_world =
    (Ok (Some (lit "https://podcasts.apple.com/rss/podcast/" ++ digits ++ lit ".xml")),
     empty_world).
Proof.
  apply (C3_resolve_apple_id ascii_digit
           (lit "https://podcasts.apple.com/us/podcast/foo/id123456789")
           (lit "https://podcasts.apple.com/us/podcast/foo/")
           (lit "123456789") [] empty_world).
  - apply py_in_spec. vm_compute. reflexivity.
  - split; [reflexivity |]. split; [discriminate |].
    vm_compute. repeat constructor.
Defined.

(** C4, as stated, fails: the Apple feed URL the resolver itself builds ends
    with [.xml] and contains [rss], and it resolves to [None], because the
    Apple branch is tried first. *)
Lemma C4_counterexample :
  let s := lit "https://podcasts.apple.com/rss/podcast/123.xml" in
  (has_suffix (lit ".xml") s \/ substring (lit "rss") s) /\
  fst (resolve_feed_url ascii_digit s empty_world) = Ok None /\
  fst (resolve_feed_url ascii_digit s empty_world) <> Ok (Some s).
Proof.
  split; [| split].
  - left. apply endswith_spec. vm_compute. reflexivity.
  - vm_compute. reflexivity.
  - vm_compute. discriminate.
Qed.

(** C4 (amended). A locator that does not contain [podcasts.apple.com] and
    that ends with [.xml] or contains [rss] is returned unchanged; nothing is
    printed. *)
Theorem C4_resolve_direct_feed
    (isdigit : N -> bool) (user_input : pystr) (w : world) :
  ~ substring (lit "podcasts.apple.com") user_input ->
  has_suffix (lit ".xml") user_input \/ substring (lit "rss") user_input ->
  resolve_feed_url isdigit user_input w = (Ok (Some user_input), w).
Proof.
  intros Happle%py_in_false Hfeed. unfold resolve_feed_url. rewrite Happle.
  destruct Hfeed as [Hxml%endswith_spec | Hrss%py_in_spec].
  - by rewrite Hxml.
  - by rewrite Hrss, orb_true_r.
Qed.

Lemma C4_resolve_direct_feed_witness :
  resolve_feed_url ascii_digit (lit "https://example.com/feed.xml") empty_world =
  (Ok (Some (lit "https://example.com/feed.xml")), empty_world).
Proof.
  apply (C4_resolve_direct_feed ascii_digit (lit "https://example.com/feed.xml") empty_world).
  - intros H%py_in_spec. vm_compute in H. discriminate.
  - left. apply endswith_spec. vm_compute. reflexivity.
Defined.

(** C5. A locator that matches no pattern, and a locator that contains
    [podcasts.apple.com] but no [id] followed by digits, both resolve to
    [None]: the call returns normally and only prints a diagnostic line. *)
Theorem C5_resolve_absent
    (isdigit : N -> bool) (user_input : pystr) (w : world) :
  (~ substring (lit "podcasts.apple.com") user_input /\
   ~ has_suffix (lit ".xml") user_input /\
   ~ substring (lit "rss") user_input) \/
  (substring (lit "podcasts.apple.com") user_input /\
   forall pre ds post, ~ id_match isdigit user_input pre ds post) ->
  exists m,
    (m = MsgUnsupported \/ m = MsgNoAppleId) /\
    resolve_feed_url isdigit user_input w = (Ok None, printed w [m]).
Proof.
  unfold resolve_feed_url.
  intros [(Happle%py_in_false & Hxml%endswith_false & Hrss%py_in_false)
         | [Happle%py_in_spec Hid%re_search_id_None]].
  - exists MsgUnsupported. split; [by left |]. by rewrite Happle, Hxml, Hrss.
  - exists MsgNoAppleId. split; [by right |]. by rewrite Happle, Hid.
Qed.

Lemma C5_resolve_absent_witness :
  (exists m, (m = MsgUnsupported \/ m = MsgNoAppleId) /\
     resolve_feed_url ascii_digit (lit "https://example.com/show") empty_world =
     (Ok None, printed empty_world [m])) /\
  (exists m, (m = MsgUnsupported \/ m = MsgNoAppleId) /\
     resolve_feed_url ascii_digit (lit "https://podcasts.apple.com/us/podcast/foo")
       empty_world =
     (Ok None, printed empty_world [m])).
Proof.
  split.
  - apply (C5_resolve_absent ascii_digit (lit "https://example.com/show") empty_world).
    left. repeat split.
    + intros H%py_in_spec. vm_compute in H. discriminate.
    + intros H%endswith_spec. vm_compute in H. discriminate.
    + intros H%py_in_spec. vm_compute in H. discriminate.
  - apply (C5_resolve_absent ascii_digit
             (lit "https://podcasts.apple.com/us/podcast/foo") empty_world).
    right. split.
    + apply py_in_spec. vm_compute. reflexivity.
    + apply re_search_id_None_inv. vm_compute. reflexivity.
Defined.

(** ** Titles and paths *)

Lemma sanitize_spec (t : pystr) : sanitize t = map spec_sanitize_char t.
Proof.
  unfold sanitize, replace. rewrite map_map. apply map_ext. intros c.
  unfold spec_sanitize_char. destruct (c =? chr " "); reflexivity.
Qed.

Lemma spec_sanitize_char_no_slash (c : N) : (chr "/" =? spec_sanitize_char c) = false.
Proof.
  unfold spec_sanitize_char.
  destruct (c =? chr " "); [reflexivity |].
  destruct (N.eqb_spec c (chr "/")) as [_ | Hc]; [reflexivity |].
  apply N.eqb_neq. congruence.
Qed.

Lemma sanitize_no_leading_slash (t suffix : pystr) :
  startswith suffix (lit "/") = false ->
  startswith (sanitize t ++ suffix) (lit "/") = false.
Proof.
  intros Hsuffix. rewrite sanitize_spec. destruct t as [|c t]; [done |].
  change (lit "/") with [chr "/"]. cbn [map app startswith].
  by rewrite spec_sanitize_char_no_slash.
Qed.

Lemma transcript_path_spec (t : pystr) :
  transcript_path_of (sanitize t) =
  lit "downloads/" ++ map spec_sanitize_char t ++ lit "_transcript.txt".
Proof.
  unfold transcript_path_of, os_path_join.
  rewrite sanitize_no_leading_slash by reflexivity.
  by rewrite sanitize_spec.
Qed.

Lemma audio_path_spec (t : pystr) :
  audio_path_of (sanitize t) = lit "downloads/" ++ map spec_sanitize_char t ++ lit ".mp3".
Proof.
  unfold audio_path_of, os_path_join.
  rewrite sanitize_no_leading_slash by reflexivity.
  by rewrite sanitize_spec.
Qed.

Lemma audio_path_not_transcript_path (t : pystr) :
  audio_path_of (sanitize t) <> transcript_path_of (sanitize t).
Proof.
  rewrite audio_path_spec, transcript_path_spec.
  intros H. do 2 apply app_inv_head in H. discriminate H.
Qed.

Lemma truthy_true (s : pystr) : truthy s = true <-> s <> [].
Proof. by destruct s. Qed.

Lemma truthy_false (s : pystr) : truthy s = false <-> s = [].
Proof. by destruct s. Qed.

(** ** One pass of the loop body *)

Section PipelineFacts.

Variable feedparser_parse : pystr -> list entry.
Variable requests_get : list call -> pystr -> result (list N).
Variable whisper_create : list call -> file_content -> result pystr.

Local Abbreviation process := (process_entry requests_get whisper_create).
Local Abbreviation download :=
  (download_episodes_from_rss feedparser_parse requests_get whisper_create).

Ltac run_steps :=
  cbv [bind try_except transcribe_audio open_rb whisper http_get
       write_text write_bytes print ret from_option id];
  cbn [files dirs stdout calls].

Lemma process_entry_ready (e : entry) (w : world) (raw : pystr) (audio_url : option pystr) :
  title e = Some raw ->
  audio_url_of e = Ok audio_url ->
  process e w =
  resolve_transcript requests_get whisper_create (sanitize raw) audio_url e w.
Proof. intros Htitle Haudio. unfold process_entry, bind, of_result. by rewrite Htitle, Haudio. Qed.

Lemma process_entry_no_title (e : entry) (w : world) :
  title e = None -> process e w = (Raise (attribute_error "title"), w).
Proof. intros Htitle. unfold process_entry, bind, of_result. by rewrite Htitle. Qed.

Lemma process_entry_lookup_fails (e : entry) (w : world) (raw : pystr) (ex : exn) :
  title e = Some raw ->
  audio_url_of e = Raise ex ->
  process e w = (Raise ex, w).
Proof. intros Htitle Haudio. unfold process_entry, bind, of_result. by rewrite Htitle, Haudio. Qed.

Lemma process_entry_text (e : entry) (w : world) (raw : pystr) (audio_url : option pystr) :
  title e = Some raw ->
  audio_url_of e = Ok audio_url ->
  truthy (transcript_text_of e) = true ->
  process e w =
  (Ok tt,
   World (<[transcript_path_of (sanitize raw) :=
              TextFile (lit "utf-8") (transcript_text_of e)]> (files w))
         (dirs w)
         (stdout w ++ [MsgScraped (transcript_path_of (sanitize raw))])
         (calls w)).
Proof.
  intros Htitle Haudio Htext. rewrite (process_entry_ready e w raw audio_url) by done.
  unfold resolve_transcript. rewrite Htext. reflexivity.
Qed.

Lemma process_entry_no_audio (e : entry) (w : world) (raw : pystr) (audio_url : option pystr) :
  title e = Some raw ->
  audio_url_of e = Ok audio_url ->
  truthy (transcript_text_of e) = false ->
  truthy_opt audio_url = false ->
  process e w = (Ok tt, printed w [MsgNoAudio (sanitize raw)]).
Proof.
  intros Htitle Haudio Htext Hurl. rewrite (process_entry_ready e w raw audio_url) by done.
  unfold resolve_transcript. rewrite Htext, Hurl. reflexivity.
Qed.

Lemma process_entry_download_fails
    (e : entry) (w : world) (raw url : pystr) (ex : exn) :
  title e = Some raw ->
  audio_url_of e = Ok (Some url) ->
  truthy (transcript_text_of e) = false ->
  truthy url = true ->
  requests_get (calls w) url = Raise ex ->
  process e w =
  (Raise ex,
   World (files w) (dirs w)
         (stdout w ++ [MsgDownloading (sanitize raw)])
         (calls w ++ [CallGet url])).
Proof.
  intros Htitle Haudio Htext Hurl Hget.
  rewrite (process_entry_ready e w raw (Some url)) by done.
  unfold resolve_transcript. rewrite Htext. cbn [truthy_opt]. rewrite Hurl.
  run_steps. by rewrite Hget.
Qed.

Lemma process_entry_whisper_fails
    (e : entry) (w : world) (raw url : pystr) (audio : list N) (ex : exn) :
  title e = Some raw ->
  audio_url_of e = Ok (Some url) ->
  truthy (transcript_text_of e) = false ->
  truthy url = true ->
  requests_get (calls w) url = Ok audio ->
  whisper_create (calls w ++ [CallGet url]) (BinaryFile audio) = Raise ex ->
  process e w =
  (Ok tt,
   World (<[audio_path_of (sanitize raw) := BinaryFile audio]> (files w))
         (dirs w)
         (stdout w ++ [MsgDownloading (sanitize raw);
                       MsgSaved (audio_path_of (sanitize raw));
                       MsgWhisperError (sanitize raw) (exn_str ex)])
         (calls w ++ [CallGet url; CallWhisper (audio_path_of (sanitize raw))])).
Proof.
  intros Htitle Haudio Htext Hurl Hget Hwhisper.
  rewrite (process_entry_ready e w raw (Some url)) by done.
  unfold resolve_transcript. rewrite Htext. cbn [truthy_opt]. rewrite Hurl.
  run_steps. rewrite Hget, lookup_insert_eq. cbn [files dirs stdout calls].
  rewrite Hwhisper. cbn [files dirs stdout calls]. by rewrite <- !app_assoc.
Qed.

Lemma process_entry_whisper_ok
    (e : entry) (w : world) (raw url : pystr) (audio : list N) (text : pystr) :
  title e = Some raw ->
  audio_url_of e = Ok (Some url) ->
  truthy (transcript_text_of e) = false ->
  truthy url = true ->
  requests_get (calls w) url = Ok audio ->
  whisper_create (calls w ++ [CallGet url]) (BinaryFile audio) = Ok text ->
  process e w =
  (Ok tt,
   World (<[transcript_path_of (sanitize raw) := TextFile (lit "utf-8") text]>
            (<[audio_path_of (sanitize raw) := BinaryFile audio]> (files w)))
         (dirs w)
         (stdout w ++ [MsgDownloading (sanitize raw);
                       MsgSaved (audio_path_of (sanitize raw));
                       MsgWhisperSaved (transcript_path_of (sanitize raw))])
         (calls w ++ [CallGet url; CallWhisper (audio_path_of (sanitize raw))])).
Proof.
  intros Htitle Haudio Htext Hurl Hget Hwhisper.
  rewrite (process_entry_ready e w raw (Some url)) by done.
  unfold resolve_transcript. rewrite Htext. cbn [truthy_opt]. rewrite Hurl.
  run_steps. rewrite Hget, lookup_insert_eq. cbn [files dirs stdout calls].
  rewrite Hwhisper. cbn [files dirs stdout calls]. by rewrite <- !app_assoc.
Qed.

Lemma process_entry_outcome (e : entry) (w w' : world) (r : unit) :
  process e w = (Ok r, w') ->
  exists new m,
    stdout w' = stdout w ++ new /\
    List.filter is_outcome new = [m] /\
    reports e m.
Proof.
  unfold reports.
  destruct (title e) as [raw|] eqn:Htitle.
  2: { by rewrite process_entry_no_title. }
  destruct (audio_url_of e) as [audio_url | ex] eqn:Haudio.
  2: { by rewrite (process_entry_lookup_fails e w raw ex). }
  destruct (truthy (transcript_text_of e)) eqn:Htext.
  { rewrite (process_entry_text e w raw audio_url) by done. intros [= _ <-]. cbn [stdout].
    eexists _, _. split; [done |]. split; [done |]. exists raw. split; [done |]. by left. }
  destruct (truthy_opt audio_url) eqn:Hurl.
  2: { rewrite (process_entry_no_audio e w raw audio_url) by done. intros [= _ <-].
       cbn [stdout]. eexists _, _. split; [done |]. split; [done |].
       exists raw. split; [done |]. by do 3 right. }
  destruct audio_url as [url|]; [cbn in Hurl | done].
  destruct (requests_get (calls w) url) as [audio | ex] eqn:Hget.
  2: { by rewrite (process_entry_download_fails e w raw url ex). }
  destruct (whisper_create (calls w ++ [CallGet url]) (BinaryFile audio))
    as [text | ex] eqn:Hwhisper.
  - rewrite (process_entry_whisper_ok e w raw url audio text) by done.
    intros [= _ <-]. cbn [stdout].
    eexists _, _. split; [done |]. split; [done |].
    exists raw. split; [done |]. right. by left.
  - rewrite (process_entry_whisper_fails e w raw url audio ex) by done.
    intros [= _ <-]. cbn [stdout].
    eexists _, _. split; [done |]. split; [done |].
    exists raw. split; [done |]. do 2 right. left. by eexists.
Qed.

(** A loop that ends normally has printed one outcome line per episode, in
    the order of the episodes. *)
Lemma for_each_outcomes (es : list entry) (w w' : world) (r : unit) :
  for_each es process w = (Ok r, w') ->
  exists new,
    stdout w' = stdout w ++ new /\
    Forall2 reports es (List.filter is_outcome new).
Proof.
  revert w. induction es as [|e es IH]; intros w; cbn [for_each].
  - intros [= _ <-]. exists []. split; [by rewrite app_nil_r | constructor].
  - unfold bind at 1. destruct (process e w) as [[[]|ex] w1] eqn:Hstep; [|done].
    apply process_entry_outcome in Hstep as (new1 & m & Hout1 & Hm & Hrep).
    intros (new2 & Hout2 & Hrest)%IH.
    exists (new1 ++ new2). split.
    + by rewrite Hout2, Hout1, app_assoc.
    + rewrite List.filter_app, Hm. by constructor.
Qed.

Lemma download_outcomes (rss_url : pystr) (limit : option Z) (w w' : world) (r : unit) :
  download rss_url limit w = (Ok r, w') ->
  exists new,
    stdout w' = stdout w ++ new /\
    Forall2 reports (episodes_of feedparser_parse rss_url (default default_limit limit))
      (List.filter is_outcome new).
Proof.
  unfold download_episodes_from_rss, bind at 1, makedirs.
  intros (new & Hout & Hrep)%for_each_outcomes. cbn [stdout] in Hout.
  by exists new.
Qed.

End PipelineFacts.

(** ** The transcript resolver *)

(** C1. The code breaks this claim.  Lines 48 and 49 run for every entry,
    before the test on the transcript, and [entry.enclosures] raises for an
    item that has neither link nor enclosure.  For such an item with a
    non-empty embedded transcript nothing is written and nothing is printed:
    the [AttributeError] leaves the loop, which stops there. *)
Theorem C1_embedded_transcript_lost_without_links
    (requests_get : list call -> pystr -> result (list N))
    (whisper_create : list call -> file_content -> result pystr)
    (e : entry) (rest : list entry) (w : world) (raw_title : pystr) :
  transcript_text_of e <> [] ->
  title e = Some raw_title ->
  enclosures e = None ->
  for_each (e :: rest) (process_entry requests_get whisper_create) w =
    (Raise (attribute_error "enclosures"), w).
Proof.
  intros _ Htitle Hlinks. cbn [for_each]. unfold bind at 1.
  rewrite (process_entry_lookup_fails requests_get whisper_create
             e w raw_title (attribute_error "enclosures")); [done | done |].
  unfold audio_url_of. by rewrite Hlinks.
Qed.

Lemma C1_embedded_transcript_lost_without_links_witness :
  transcript_text_of text_without_links = lit "show notes" /\
  for_each [text_without_links; episode_with_text]
    (process_entry serve_audio whisper_down) empty_world =
  (Raise (Exn (lit "object has no attribute 'enclosures'")), empty_world).
Proof.
  split; [reflexivity |].
  apply (C1_embedded_transcript_lost_without_links serve_audio whisper_down
           text_without_links [episode_with_text] empty_world (lit "Ep 4")).
  - vm_compute. discriminate.
  - reflexivity.
  - reflexivity.
Defined.

(** C6. The embedded transcript of a raw entry, as line 51 computes it and as
    the [if] on it reads it, is the content value if that is non-empty,
    otherwise the summary if that is non-empty, otherwise absent; an empty
    string in either field counts as absent. *)
Theorem C6_embedded_transcript_source (e : entry) :
  spec_embedded_transcript e =
    (if truthy (transcript_text_of e) then Some (transcript_text_of e) else None) /\
  transcript_text_of e = default [] (spec_embedded_transcript e).
Proof.
  unfold spec_embedded_transcript, spec_content_value, transcript_text_of,
    py_or, get_value, get_summary, first_content.
  destruct e as [t encs [|[[[|c v]|]] ds] [[|c' s]|]]; by cbn.
Qed.

(** C7. The code breaks this claim.  An item with no embedded transcript
    and neither link nor enclosure has no audio URL, yet it is not reported
    as missing its audio: [entry.enclosures] raises on line 49, nothing is
    printed, and the [AttributeError] leaves the loop, which stops there. *)
Theorem C7_audio_missing_raises_without_links
    (requests_get : list call -> pystr -> result (list N))
    (whisper_create : list call -> file_content -> result pystr)
    (e : entry) (rest : list entry) (w : world) (raw_title : pystr) :
  transcript_text_of e = [] ->
  title e = Some raw_title ->
  enclosures e = None ->
  for_each (e :: rest) (process_entry requests_get whisper_create) w =
    (Raise (attribute_error "enclosures"), w).
Proof.
  intros _ Htitle Hlinks. cbn [for_each]. unfold bind at 1.
  rewrite (process_entry_lookup_fails requests_get whisper_create
             e w raw_title (attribute_error "enclosures")); [done | done |].
  unfold audio_url_of. by rewrite Hlinks.
Qed.

Lemma C7_audio_missing_raises_without_links_witness :
  for_each [bare_without_links; episode_bare]
    (process_entry serve_audio whisper_down) empty_world =
  (Raise (Exn (lit "object has no attribute 'enclosures'")), empty_world).
Proof.
  apply (C7_audio_missing_raises_without_links serve_audio whisper_down
           bare_without_links [episode_bare] empty_world (lit "Ep 5")).
  - reflexivity.
  - reflexivity.
  - reflexivity.
Defined.



(** C10. For an episode that reaches the transcription step, the transcript
    path is written only when the transcription call returns: on success it
    holds the returned text, on failure it holds exactly what it held before
    the episode was processed. *)
Theorem C10_transcript_written_only_on_success
    (requests_get : list call -> pystr -> result (list N))
    (whisper_create : list call -> file_content -> result pystr)
    (e : entry) (w : world) (raw_title url : pystr) (audio : list N) :
  title e = Some raw_title ->
  transcript_text_of e = [] ->
  audio_url_of e = Ok (Some url) ->
  url <> [] ->
  requests_get (calls w) url = Ok audio ->
  let t := map spec_sanitize_char raw_title in
  let transcript_path := lit "downloads/" ++ t ++ lit "_transcript.txt" in
  exists w',
    process_entry requests_get whisper_create e w = (Ok tt, w') /\
    files w' !! transcript_path =
      match whisper_create (calls w ++ [CallGet url]) (BinaryFile audio) with
      | Ok text => Some (TextFile (lit "utf-8") text)
      | Raise _ => files w !! transcript_path
      end.
Proof.
  intros Htitle Htext%truthy_false Haudio Hurl%truthy_true Hget t transcript_path.
  pose proof (audio_path_not_transcript_path raw_title) as Hpaths.
  rewrite transcript_path_spec in Hpaths. fold t transcript_path in Hpaths.
  destruct (whisper_create (calls w ++ [CallGet url]) (BinaryFile audio))
    as [text | ex] eqn:Hwhisper.
  - pose proof (process_entry_whisper_ok requests_get whisper_create
                  e w raw_title url audio text Htitle Haudio Htext Hurl Hget Hwhisper) as Hrun.
    rewrite transcript_path_spec in Hrun. fold t transcript_path in Hrun.
    eexists. split; [exact Hrun |]. cbn [files]. apply lookup_insert_eq.
  - pose proof (process_entry_whisper_fails requests_get whisper_create
                  e w raw_title url audio ex Htitle Haudio Htext Hurl Hget Hwhisper) as Hrun.
    eexists. split; [exact Hrun |]. cbn [files]. by apply lookup_insert_ne.
Qed.

Lemma C10_transcript_written_only_on_success_witness :
  exists w',
    process_entry serve_audio whisper_down episode_with_audio empty_world = (Ok tt, w') /\
    files w' !! lit "downloads/Ep_2_transcript.txt" = None.
Proof.
  apply (C10_transcript_written_only_on_success serve_audio whisper_down
           episode_with_audio empty_world (lit "Ep 2") (lit "http://h/b.mp3")
           [0x49; 0x44; 0x33]).
  - reflexivity.
  - vm_compute. reflexivity.
  - vm_compute. reflexivity.
  - vm_compute. discriminate.
  - reflexivity.
Defined.

(** ** The batch *)

Lemma slice_to_nonneg {A} (l : list A) (stop : Z) :
  (0 <= stop)%Z -> slice_to l stop = take (Nat.min (length l) (Z.to_nat stop)) l.
Proof.
  intros Hstop. unfold slice_to.
  destruct (Z.ltb_spec stop 0) as [? | _]; [lia |]. f_equal. lia.
Qed.

Lemma slice_to_negative {A} (l : list A) (stop : Z) :
  (stop < 0)%Z -> slice_to l stop = take (length l - Z.to_nat (- stop)) l.
Proof.
  intros Hstop. unfold slice_to.
  destruct (Z.ltb_spec stop 0) as [_ | ?]; [| lia]. f_equal. lia.
Qed.

(** C8, as stated, fails for a negative limit: with three entries and the
    limit [-1] the slice [entries[:-1]] keeps the first two entries, not the
    first [min(3, -1)]. *)
Lemma C8_counterexample :
  let url := lit "https://example.com/feed.xml" in
  let entries := three_episodes url in
  episodes_of three_episodes url (-1) = [episode_with_text; episode_with_audio] /\
  episodes_of three_episodes url (-1) <>
    take (Z.to_nat (Z.min (Z.of_nat (length entries)) (-1))) entries.
Proof. split; [reflexivity | discriminate]. Qed.

(** C8 (amended). For a feed with N entries and a limit L >= 0 the loop runs
    over exactly the first min(N, L) entries, in the order of the feed; a run
    that ends normally has printed one outcome line for each of them, in that
    order; and a call without a limit is the call with the limit 3. *)
Theorem C8_limit_selects_prefix
    (feedparser_parse : pystr -> list entry)
    (requests_get : list call -> pystr -> result (list N))
    (whisper_create : list call -> file_content -> result pystr)
    (rss_url : pystr) (limit : Z) :
  (0 <= limit)%Z ->
  let entries := feedparser_parse rss_url in
  let n := Nat.min (length entries) (Z.to_nat limit) in
  let download := download_episodes_from_rss feedparser_parse requests_get whisper_create in
  episodes_of feedparser_parse rss_url limit = take n entries /\
  length (episodes_of feedparser_parse rss_url limit) = n /\
  (forall w,
      download rss_url (Some limit) w =
      (makedirs downloads_dir ;;
       for_each (take n entries) (process_entry requests_get whisper_create)) w) /\
  (forall w r w',
      download rss_url (Some limit) w = (Ok r, w') ->
      exists new,
        stdout w' = stdout w ++ new /\
        Forall2 reports (take n entries) (List.filter is_outcome new)) /\
  (forall w, download rss_url None w = download rss_url (Some 3%Z) w).
Proof.
  intros Hlimit entries n download.
  assert (episodes_of feedparser_parse rss_url limit = take n entries) as Heps
    by (by apply slice_to_nonneg).
  split; [exact Heps |]. split; [| split; [| split]].
  - rewrite Heps, length_take. subst n. lia.
  - intros w. subst download. unfold download_episodes_from_rss.
    cbn [from_option id]. by rewrite Heps.
  - intros w r w' Hrun. rewrite <- Heps.
    exact (download_outcomes _ _ _ rss_url (Some limit) w w' r Hrun).
  - reflexivity.
Qed.

Lemma C8_limit_selects_prefix_witness :
  episodes_of three_episodes (lit "https://example.com/feed.xml") 2 =
  [episode_with_text; episode_with_audio].
Proof.
  apply (C8_limit_selects_prefix three_episodes serve_audio whisper_down
           (lit "https://example.com/feed.xml") 2).
  lia.
Defined.

(** C9, as stated, fails: the downloader has no [return], so the caller gets
    the same value ([None]) from a run over no episode and from a run over
    one episode, and cannot read the processed episodes off it. *)
Lemma C9_counterexample :
  ~ returns_outcome_sequence one_or_none serve_audio whisper_down.
Proof.
  intros [as_sequence Hseq].
  destruct (Hseq [] None empty_world tt
              (snd (download_episodes_from_rss one_or_none serve_audio whisper_down
                      [] None empty_world)) eq_refl) as [Hnone _].
  destruct (Hseq (lit "feed") None empty_world tt
              (snd (download_episodes_from_rss one_or_none serve_audio whisper_down
                      (lit "feed") None empty_world)) eq_refl) as [Hone _].
  rewrite Hnone in Hone. vm_compute in Hone. discriminate Hone.
Qed.

(** C9 (amended). The downloader returns [None]; what a run that ends
    normally leaves to its caller is on standard output: exactly one outcome
    line per processed episode, N lines for N episodes, in the order of the
    input, whatever the kinds of outcome. *)
Theorem C9_outcomes_are_printed
    (feedparser_parse : pystr -> list entry)
    (requests_get : list call -> pystr -> result (list N))
    (whisper_create : list call -> file_content -> result pystr)
    (rss_url : pystr) (limit : option Z) (w w' : world) (r : unit) :
  download_episodes_from_rss feedparser_parse requests_get whisper_create
    rss_url limit w = (Ok r, w') ->
  let episodes := episodes_of feedparser_parse rss_url (default default_limit limit) in
  r = tt /\
  exists new,
    stdout w' = stdout w ++ new /\
    length (List.filter is_outcome new) = length episodes /\
    Forall2 reports episodes (List.filter is_outcome new).
Proof.
  intros (new & Hout & Hrep)%download_outcomes episodes.
  split; [by destruct r |]. exists new. split; [done |]. split; [| done].
  symmetry. by eapply Forall2_length.
Qed.

Lemma C9_outcomes_are_printed_witness :
  exists new,
    stdout (snd (download_episodes_from_rss three_episodes serve_audio whisper_down
                   (lit "https://example.com/feed.xml") None empty_world)) = [] ++ new /\
    length (List.filter is_outcome new) = 3%nat.
Proof.
  destruct (C9_outcomes_are_printed three_episodes serve_audio whisper_down
              (lit "https://example.com/feed.xml") None empty_world
              (snd (download_episodes_from_rss three_episodes serve_audio whisper_down
                      (lit "https://example.com/feed.xml") None empty_world)) tt)
    as (_ & new & Hout & Hlen & _).
  - vm_compute. reflexivity.
  - exists new. split; [exact Hout | exact Hlen].
Defined.

(** * Further properties of the code *)

(** ** The resolver and the main block *)

Section ResolverOutcome.

Variable isdigit : N -> bool.

Lemma re_match_id_not_i (c : N) (s : pystr) :
  (c =? chr "i") = false -> re_match_id isdigit (c :: s) = None.
Proof. intros Hc. destruct s as [|d s]; cbn [re_match_id]; [done |]. by rewrite Hc. Qed.

Lemma re_search_id_no_i (s : pystr) :
  Forall (fun c => (c =? chr "i") = false) s -> re_search_id isdigit s = None.
Proof.
  induction 1 as [|c s Hc _ IH]; [done |].
  by rewrite re_search_id_unfold, re_match_id_not_i.
Qed.

(** The two ways the resolver ends: a non-empty URL and an untouched world,
    or [None] and one diagnostic line. *)
Lemma resolve_feed_url_cases (user_input : pystr) (w : world) :
  (exists u,
      resolve_feed_url isdigit user_input w = (Ok (Some u), w) /\ truthy u = true) \/
  (exists m,
      resolve_feed_url isdigit user_input w = (Ok None, printed w [m]) /\
      (m = MsgUnsupported \/ m = MsgNoAppleId)).
Proof.
  unfold resolve_feed_url.
  destruct (py_in (lit "podcasts.apple.com") user_input).
  - destruct (re_search_id isdigit user_input) as [ds|].
    + left. by eexists.
    + right. exists MsgNoAppleId. split; [done | by right].
  - destruct (endswith user_input (lit ".xml") || py_in (lit "rss") user_input) eqn:Hfeed.
    + left. exists user_input. split; [done |].
      destruct user_input; [vm_compute in Hfeed; discriminate | done].
    + right. exists MsgUnsupported. split; [done | by left].
Qed.

End ResolverOutcome.

(** X1. The resolver never raises and never touches files, directories or
    the network: either it returns a URL and leaves the world as it was, the
    URL being non-empty and ending with [.xml] or containing [rss]; or it
    returns [None] and prints exactly one diagnostic line. *)
Theorem resolve_feed_url_outcome
    (isdigit : N -> bool) (user_input : pystr) (w : world) :
  (exists u,
      resolve_feed_url isdigit user_input w = (Ok (Some u), w) /\
      u <> [] /\
      (has_suffix (lit ".xml") u \/ substring (lit "rss") u)) \/
  (exists m,
      resolve_feed_url isdigit user_input w = (Ok None, printed w [m]) /\
      (m = MsgUnsupported \/ m = MsgNoAppleId)).
Proof.
  destruct (resolve_feed_url_cases isdigit user_input w)
    as [(u & Hrun & Hu%truthy_true) | Hnone]; [left | by right].
  exists u. split; [done |]. split; [done |].
  revert Hrun. unfold resolve_feed_url.
  destruct (py_in (lit "podcasts.apple.com") user_input).
  - destruct (re_search_id isdigit user_input) as [ds|]; [| done].
    intros [= <-]. left. exists (lit "https://podcasts.apple.com/rss/podcast/" ++ ds).
    unfold apple_feed. by rewrite app_assoc.
  - destruct (endswith user_input (lit ".xml")) eqn:Hxml.
    + intros [= <-]. left. by apply endswith_spec.
    + destruct (py_in (lit "rss") user_input) eqn:Hrss; [| done].
      intros [= <-]. right. by apply py_in_spec.
Qed.

(** X2. The resolver is not idempotent on Apple pages: when [i] is not a
    digit, every feed URL the Apple branch builds is itself refused, with the
    "could not extract" diagnostic. *)
Theorem resolve_feed_url_refuses_apple_feed
    (isdigit : N -> bool) (podcast_id : pystr) (w : world) :
  isdigit (chr "i") = false ->
  Forall (fun c => isdigit c = true) podcast_id ->
  resolve_feed_url isdigit (apple_feed podcast_id) w =
    (Ok None, printed w [MsgNoAppleId]).
Proof.
  intros Hi Hds. unfold resolve_feed_url.
  assert (py_in (lit "podcasts.apple.com") (apple_feed podcast_id) = true) as ->.
  { apply py_in_spec. by exists (lit "https://"), (lit "/rss/podcast/" ++ podcast_id ++ lit ".xml"). }
  rewrite re_search_id_no_i; [done |].
  unfold apple_feed. repeat apply Forall_app_2.
  - vm_compute. repeat constructor.
  - eapply Forall_impl; [exact Hds |]. intros c Hc. cbn beta in Hc.
    destruct (N.eqb_spec c (chr "i")) as [-> |]; [congruence | done].
  - vm_compute. repeat constructor.
Qed.

Lemma resolve_feed_url_refuses_apple_feed_witness :
  resolve_feed_url ascii_digit
    (lit "https://podcasts.apple.com/rss/podcast/123456789.xml") empty_world =
  (Ok None, printed empty_world [MsgNoAppleId]).
Proof.
  apply (resolve_feed_url_refuses_apple_feed ascii_digit (lit "123456789") empty_world).
  - reflexivity.
  - vm_compute. repeat constructor.
Defined.

Section MainBlock.

Variable feedparser_parse : pystr -> list entry.
Variable requests_get : list call -> pystr -> result (list N).
Variable whisper_create : list call -> file_content -> result pystr.
Variable isdigit : N -> bool.

Local Abbreviation run_main :=
  (main feedparser_parse requests_get whisper_create isdigit).
Local Abbreviation download :=
  (download_episodes_from_rss feedparser_parse requests_get whisper_create).

(** X3. When the locator does not resolve, the main block downloads nothing:
    it returns normally, files, directories and call trace are as before, and
    the only output is the resolver's diagnostic followed by the "could not
    resolve" line. *)
Theorem main_unresolved (user_input : pystr) (w : world) :
  fst (resolve_feed_url isdigit user_input w) = Ok None ->
  exists m,
    (m = MsgUnsupported \/ m = MsgNoAppleId) /\
    run_main user_input w = (Ok tt, printed w [m; MsgNotResolved]).
Proof.
  intros Hnone.
  destruct (resolve_feed_url_cases isdigit user_input w)
    as [(u & Hrun & _) | (m & Hrun & Hm)]; [by rewrite Hrun in Hnone |].
  exists m. split; [done |]. unfold main, bind. rewrite Hrun. cbn [truthy_opt].
  unfold print, printed. cbn [files dirs stdout calls]. by rewrite <- app_assoc.
Qed.

(** X4. When the locator resolves, the main block is the downloader run on
    the resolved URL with the default limit, from the same world: resolving
    prints nothing, and a resolved URL always passes the truthiness test. *)
Theorem main_resolved (user_input rss_feed : pystr) (w : world) :
  fst (resolve_feed_url isdigit user_input w) = Ok (Some rss_feed) ->
  run_main user_input w = download rss_feed (Some 3%Z) w.
Proof.
  intros Hsome.
  destruct (resolve_feed_url_cases isdigit user_input w)
    as [(u & Hrun & Hu) | (m & Hrun & _)]; [| by rewrite Hrun in Hsome].
  rewrite Hrun in Hsome. injection Hsome as ->.
  unfold main, bind. rewrite Hrun. cbn [truthy_opt]. by rewrite Hu.
Qed.

(** X5. A main block that ends normally has processed at most three
    episodes: it has printed at most three outcome lines. *)
Theorem main_at_most_three (user_input : pystr) (w w' : world) (r : unit) :
  run_main user_input w = (Ok r, w') ->
  exists new,
    stdout w' = stdout w ++ new /\
    (length (List.filter is_outcome new) <= 3)%nat.
Proof.
  destruct (resolve_feed_url_cases isdigit user_input w)
    as [(u & Hrun & Hu) | (m & Hrun & Hm)]; unfold main, bind; rewrite Hrun;
    cbn [truthy_opt].
  - rewrite Hu. intros (new & Hout & Hrep)%download_outcomes.
    exists new. split; [done |].
    rewrite <- (Forall2_length _ _ _ Hrep). unfold episodes_of.
    cbn [from_option id]. rewrite slice_to_nonneg by done. rewrite length_take.
    unfold default_limit. lia.
  - intros [= _ <-]. exists [m; MsgNotResolved]. split.
    + cbn [stdout printed]. by rewrite <- app_assoc.
    + destruct Hm as [-> | ->]; cbn; lia.
Qed.

End MainBlock.

Lemma main_unresolved_witness :
  exists m,
    (m = MsgUnsupported \/ m = MsgNoAppleId) /\
    main three_episodes serve_audio whisper_down ascii_digit
      (lit "https://example.com/show") empty_world =
    (Ok tt, printed empty_world [m; MsgNotResolved]).
Proof.
  apply (main_unresolved three_episodes serve_audio whisper_down ascii_digit
           (lit "https://example.com/show") empty_world).
  vm_compute. reflexivity.
Defined.

Lemma main_resolved_witness :
  main three_episodes serve_audio whisper_down ascii_digit
    (lit "https://example.com/feed.xml") empty_world =
  download_episodes_from_rss three_episodes serve_audio whisper_down
    (lit "https://example.com/feed.xml") (Some 3%Z) empty_world.
Proof.
  apply (main_resolved three_episodes serve_audio whisper_down ascii_digit
           (lit "https://example.com/feed.xml") (lit "https://example.com/feed.xml")
           empty_world).
  vm_compute. reflexivity.
Defined.

Lemma main_at_most_three_witness :
  exists new,
    stdout (snd (main three_episodes serve_audio whisper_down ascii_digit
                   (lit "https://example.com/feed.xml") empty_world)) = [] ++ new /\
    (length (List.filter is_outcome new) <= 3)%nat.
Proof.
  apply (main_at_most_three three_episodes serve_audio whisper_down ascii_digit
           (lit "https://example.com/feed.xml") empty_world
           (snd (main three_episodes serve_audio whisper_down ascii_digit
                   (lit "https://example.com/feed.xml") empty_world)) tt).
  vm_compute. reflexivity.
Defined.

(** ** The Whisper wrapper *)

(** X6. [transcribe_audio] only reads: it never changes files, directories or
    output.  On a missing file it raises before the service is contacted (the
    call trace is unchanged); on a file that is there it makes exactly one
    service call and hands its answer, text or exception, on unchanged. *)
Theorem transcribe_audio_effects
    (whisper_create : list call -> file_content -> result pystr)
    (file_path : pystr) (w : world) :
  let r := transcribe_audio whisper_create file_path w in
  files (snd r) = files w /\
  dirs (snd r) = dirs w /\
  stdout (snd r) = stdout w /\
  match files w !! file_path with
  | None => (exists ex, fst r = Raise ex) /\ calls (snd r) = calls w
  | Some audio_file =>
      fst r = whisper_create (calls w) audio_file /\
      calls (snd r) = calls w ++ [CallWhisper file_path]
  end.
Proof.
  unfold transcribe_audio, bind, open_rb, whisper, ret. cbn zeta.
  destruct (files w !! file_path) as [audio_file|]; cbn [fst snd files dirs stdout calls].
  - destruct (whisper_create (calls w) audio_file); by cbn.
  - repeat split. by eexists.
Qed.

(** ** More on the loop body *)

Section LoopBody.

Variable requests_get : list call -> pystr -> result (list N).
Variable whisper_create : list call -> file_content -> result pystr.

Local Abbreviation process := (process_entry requests_get whisper_create).

(** X7. A failed audio download is not caught: the exception leaves the loop,
    no file has been written for the episode, no outcome line has been
    printed for it, and the episodes after it are not processed. *)
Theorem download_failure_aborts_batch
    (e : entry) (rest : list entry) (w : world) (raw_title url : pystr) (ex : exn) :
  title e = Some raw_title ->
  transcript_text_of e = [] ->
  audio_url_of e = Ok (Some url) ->
  url <> [] ->
  requests_get (calls w) url = Raise ex ->
  for_each (e :: rest) process w =
    (Raise ex,
     World (files w) (dirs w)
           (stdout w ++ [MsgDownloading (map spec_sanitize_char raw_title)])
           (calls w ++ [CallGet url])).
Proof.
  intros Htitle Htext%truthy_false Haudio Hurl%truthy_true Hget.
  cbn [for_each]. unfold bind at 1.
  rewrite (process_entry_download_fails requests_get whisper_create e w raw_title url ex)
    by done.
  by rewrite sanitize_spec.
Qed.



(** X16. An exception that leaves the loop body was raised before the
    transcription step: no file has been written for the episode and no
    transcription call has been made for it. *)
Theorem process_entry_raises_before_transcription
    (e : entry) (w : world) (ex : exn) :
  fst (process e w) = Raise ex ->
  files (snd (process e w)) = files w /\
  exists new,
    calls (snd (process e w)) = calls w ++ new /\
    List.filter is_whisper new = [].
Proof.
  destruct (title e) as [raw|] eqn:Htitle.
  2: { rewrite process_entry_no_title by done. intros _. split; [done |].
       exists []. by rewrite app_nil_r. }
  destruct (audio_url_of e) as [audio_url | ex'] eqn:Haudio.
  2: { rewrite (process_entry_lookup_fails _ _ e w raw ex') by done. intros _.
       split; [done |]. exists []. by rewrite app_nil_r. }
  destruct (truthy (transcript_text_of e)) eqn:Htext.
  { by rewrite (process_entry_text _ _ e w raw audio_url). }
  destruct (truthy_opt audio_url) eqn:Hurl.
  2: { by rewrite (process_entry_no_audio _ _ e w raw audio_url). }
  destruct audio_url as [url|]; [cbn in Hurl | done].
  destruct (requests_get (calls w) url) as [audio | ex'] eqn:Hget.
  - destruct (whisper_create (calls w ++ [CallGet url]) (BinaryFile audio))
      as [text | ex'] eqn:Hwhisper.
    + by rewrite (process_entry_whisper_ok _ _ e w raw url audio text).
    + by rewrite (process_entry_whisper_fails _ _ e w raw url audio ex').
  - rewrite (process_entry_download_fails _ _ e w raw url ex') by done.
    intros _. split; [done |]. by eexists.
Qed.


(** X20. An episode that has a title and links but no enclosure, and no
    embedded transcript, writes no file and makes no collaborator call; the
    only effect is the line that reports the missing audio. *)
Theorem audio_missing_reported (e : entry) (w : world) (raw_title : pystr) :
  title e = Some raw_title ->
  enclosures e = Some [] ->
  transcript_text_of e = [] ->
  exists w',
    process e w = (Ok tt, w') /\
    files w' = files w /\
    dirs w' = dirs w /\
    calls w' = calls w /\
    stdout w' = stdout w ++ [MsgNoAudio (map spec_sanitize_char raw_title)].
Proof.
  intros Htitle Hlinks Htext%truthy_false.
  eexists. split.
  - apply (process_entry_no_audio _ _ e w raw_title None); try done.
    unfold audio_url_of. by rewrite Hlinks.
  - by rewrite sanitize_spec.
Qed.

End LoopBody.

Lemma download_failure_aborts_batch_witness :
  for_each [episode_with_audio; episode_with_text]
    (process_entry no_network whisper_up) empty_world =
  (Raise (Exn (lit "connection refused")),
   World ∅ ∅ [MsgDownloading (lit "Ep_2")] [CallGet (lit "http://h/b.mp3")]).
Proof.
  apply (download_failure_aborts_batch no_network whisper_up
           episode_with_audio [episode_with_text] empty_world
           (lit "Ep 2") (lit "http://h/b.mp3") (Exn (lit "connection refused"))).
  - reflexivity.
  - vm_compute. reflexivity.
  - vm_compute. reflexivity.
  - vm_compute. discriminate.
  - reflexivity.
Defined.



Lemma process_entry_raises_before_transcription_witness :
  files (snd (process_entry no_network whisper_up episode_with_audio empty_world)) = ∅ /\
  exists new,
    calls (snd (process_entry no_network whisper_up episode_with_audio empty_world)) =
      [] ++ new /\
    List.filter is_whisper new = [].
Proof.
  apply (process_entry_raises_before_transcription no_network whisper_up
           episode_with_audio empty_world (Exn (lit "connection refused"))).
  vm_compute. reflexivity.
Defined.


Lemma audio_missing_reported_witness :
  exists w',
    process_entry serve_audio whisper_down episode_bare empty_world = (Ok tt, w') /\
    files w' = ∅ /\
    stdout w' = [MsgNoAudio (lit "Ep_3")].
Proof.
  destruct (audio_missing_reported serve_audio whisper_down episode_bare empty_world
              (lit "Ep 3"))
    as (w' & Hrun & Hfiles & _ & _ & Hout).
  - reflexivity.
  - reflexivity.
  - vm_compute. reflexivity.
  - exists w'. repeat split; [exact Hrun | exact Hfiles | exact Hout].
Defined.

(** ** Titles *)

Lemma spec_sanitize_char_no_space (c : N) : (chr " " =? spec_sanitize_char c) = false.
Proof.
  unfold spec_sanitize_char.
  destruct (N.eqb_spec c (chr " ")) as [_ | Hc]; [reflexivity |].
  destruct (c =? chr "/"); [reflexivity |].
  apply N.eqb_neq. congruence.
Qed.

Lemma spec_sanitize_char_idem (c : N) :
  spec_sanitize_char (spec_sanitize_char c) = spec_sanitize_char c.
Proof.
  unfold spec_sanitize_char.
  destruct (c =? chr " ") eqn:Hspace; [reflexivity |].
  destruct (c =? chr "/") eqn:Hslash; [reflexivity |].
  by rewrite Hspace, Hslash.
Qed.

Lemma sanitized_no_slash (t : pystr) : chr "/" ∉ map spec_sanitize_char t.
Proof.
  intros (c & Hc & _)%list_elem_of_fmap.
  pose proof (spec_sanitize_char_no_slash c) as Hno.
  rewrite <- Hc, N.eqb_refl in Hno. discriminate.
Qed.

(** X10. A sanitized title has the length of the title, holds no space and
    no slash, and sanitizing it again changes nothing. *)
Theorem sanitize_clean (t : pystr) :
  length (sanitize t) = length t /\
  (chr " " ∉ sanitize t) /\
  (chr "/" ∉ sanitize t) /\
  sanitize (sanitize t) = sanitize t.
Proof.
  rewrite !sanitize_spec. split; [apply length_map |]. split; [| split].
  - intros (c & Hc & _)%list_elem_of_fmap.
    pose proof (spec_sanitize_char_no_space c) as Hno.
    rewrite <- Hc, N.eqb_refl in Hno. discriminate.
  - apply sanitized_no_slash.
  - rewrite map_map. apply map_ext. intros c. apply spec_sanitize_char_idem.
Qed.

Lemma transcript_path_in_downloads (t : pystr) :
  in_downloads (transcript_path_of (sanitize t)).
Proof.
  rewrite transcript_path_spec. eexists. split; [done |].
  rewrite not_elem_of_app. split.
  - apply sanitized_no_slash.
  - apply (bool_decide_unpack _). vm_compute. reflexivity.
Qed.

Lemma audio_path_in_downloads (t : pystr) :
  in_downloads (audio_path_of (sanitize t)).
Proof.
  rewrite audio_path_spec. eexists. split; [done |].
  rewrite not_elem_of_app. split.
  - apply sanitized_no_slash.
  - apply (bool_decide_unpack _). vm_compute. reflexivity.
Qed.

(** ** What a run keeps *)

Lemma extends_refl (w : world) : extends w w.
Proof. by repeat split. Qed.

Lemma extends_trans (w1 w2 w3 : world) : extends w1 w2 -> extends w2 w3 -> extends w1 w3.
Proof.
  intros (Hd1 & Ho1 & Hk1 & Hs1 & Hc1) (Hd2 & Ho2 & Hk2 & Hs2 & Hc2).
  split; [congruence |]. split; [| split; [| split]].
  - intros p Hp. by rewrite Ho2, Ho1.
  - intros p Hp. by apply Hk2, Hk1.
  - by etrans.
  - by etrans.
Qed.

Lemma extends_print (w : world) (ms : list message) (cs : list call) :
  extends w (World (files w) (dirs w) (stdout w ++ ms) (calls w ++ cs)).
Proof. repeat split; try done; cbn; by apply prefix_app_r. Qed.

Lemma extends_write (w : world) (p : pystr) (c : file_content)
    (ms : list message) (cs : list call) :
  in_downloads p ->
  extends w (World (<[p := c]> (files w)) (dirs w) (stdout w ++ ms) (calls w ++ cs)).
Proof.
  intros Hp. split; [done |]. cbn [files stdout calls]. split; [| split; [| split]].
  - intros q Hq. apply lookup_insert_ne. by intros ->.
  - intros q Hq. rewrite lookup_insert. by case_decide.
  - by apply prefix_app_r.
  - by apply prefix_app_r.
Qed.

Lemma extends_write2 (w : world) (p1 p2 : pystr) (c1 c2 : file_content)
    (ms : list message) (cs : list call) :
  in_downloads p1 ->
  in_downloads p2 ->
  extends w (World (<[p2 := c2]> (<[p1 := c1]> (files w))) (dirs w)
               (stdout w ++ ms) (calls w ++ cs)).
Proof.
  intros Hp1 Hp2. split; [done |]. cbn [files stdout calls]. split; [| split; [| split]].
  - intros q Hq. rewrite !lookup_insert_ne; [done | by intros -> ..].
  - intros q Hq. rewrite !lookup_insert. by repeat case_decide.
  - by apply prefix_app_r.
  - by apply prefix_app_r.
Qed.

Section RunInvariants.

Variable feedparser_parse : pystr -> list entry.
Variable requests_get : list call -> pystr -> result (list N).
Variable whisper_create : list call -> file_content -> result pystr.

Local Abbreviation process := (process_entry requests_get whisper_create).
Local Abbreviation download :=
  (download_episodes_from_rss feedparser_parse requests_get whisper_create).

(** The six ways the loop body ends, with the calls each one makes. *)
Lemma process_entry_cases (e : entry) (w : world) :
  (takes_audio_branch e = false /\
   exists ex, process e w = (Raise ex, w)) \/
  (takes_audio_branch e = false /\
   exists p c ms,
     in_downloads p /\
     process e w = (Ok tt, World (<[p := c]> (files w)) (dirs w) (stdout w ++ ms) (calls w))) \/
  (takes_audio_branch e = false /\
   exists ms, process e w = (Ok tt, World (files w) (dirs w) (stdout w ++ ms) (calls w))) \/
  (takes_audio_branch e = true /\
   exists ex ms url,
     process e w =
       (Raise ex, World (files w) (dirs w) (stdout w ++ ms) (calls w ++ [CallGet url]))) \/
  (takes_audio_branch e = true /\
   exists p1 c1 p2 c2 ms url,
     in_downloads p1 /\ in_downloads p2 /\
     process e w =
       (Ok tt, World (<[p2 := c2]> (<[p1 := c1]> (files w))) (dirs w) (stdout w ++ ms)
                 (calls w ++ [CallGet url; CallWhisper p1]))) \/
  (takes_audio_branch e = true /\
   exists p c ms url,
     in_downloads p /\
     process e w =
       (Ok tt, World (<[p := c]> (files w)) (dirs w) (stdout w ++ ms)
                 (calls w ++ [CallGet url; CallWhisper p]))).
Proof.
  unfold takes_audio_branch.
  destruct (title e) as [raw|] eqn:Htitle.
  2: { left. split; [done |]. eexists. by apply process_entry_no_title. }
  destruct (audio_url_of e) as [audio_url | ex] eqn:Haudio.
  2: { left. split; [done |]. eexists. by eapply process_entry_lookup_fails. }
  right.
  destruct (truthy (transcript_text_of e)) eqn:Htext.
  { left. split; [done |]. eexists _, _, _. split; [apply transcript_path_in_downloads |].
    by eapply process_entry_text. }
  destruct (truthy_opt audio_url) eqn:Hurl.
  2: { right. left. split; [done |]. eexists. by eapply process_entry_no_audio. }
  destruct audio_url as [url|]; [cbn in Hurl | done].
  destruct (requests_get (calls w) url) as [audio | ex] eqn:Hget.
  2: { do 2 right. left. split; [done |]. eexists _, _, _.
       by eapply process_entry_download_fails. }
  destruct (whisper_create (calls w ++ [CallGet url]) (BinaryFile audio))
    as [text | ex] eqn:Hwhisper.
  - do 3 right. left. split; [done |]. eexists _, _, _, _, _, _.
    split; [apply audio_path_in_downloads |].
    split; [apply transcript_path_in_downloads |].
    by eapply process_entry_whisper_ok.
  - do 4 right. split; [done |]. eexists _, _, _, _.
    split; [apply audio_path_in_downloads |].
    by eapply process_entry_whisper_fails.
Qed.

Lemma process_entry_extends (e : entry) (w : world) : extends w (snd (process e w)).
Proof.
  destruct (process_entry_cases e w)
    as [(_ & ex & ->)
       | [(_ & p & c & ms & Hp & ->)
       | [(_ & ms & ->)
       | [(_ & ex & ms & url & ->)
       | [(_ & p1 & c1 & p2 & c2 & ms & url & Hp1 & Hp2 & ->)
       | (_ & p & c & ms & url & Hp & ->)]]]]]; cbn [snd].
  - apply extends_refl.
  - rewrite <- (app_nil_r (calls w)). by apply extends_write.
  - rewrite <- (app_nil_r (calls w)). apply extends_print.
  - apply extends_print.
  - by apply extends_write2.
  - by apply extends_write.
Qed.

Lemma for_each_extends (es : list entry) (w : world) :
  extends w (snd (for_each es process w)).
Proof.
  revert w. induction es as [|e es IH]; intros w; cbn [for_each].
  - apply extends_refl.
  - unfold bind at 1. pose proof (process_entry_extends e w) as Hstep.
    destruct (process e w) as [[[]|ex] w1]; cbn [snd] in *; [| done].
    by eapply extends_trans.
Qed.

(** X11. Whatever the feed holds and however the run ends (normally or by an
    uncaught exception), the downloader writes only files placed directly in
    [downloads/]: every other path keeps its content, no file is removed, the
    only directory added is [downloads], and output and call trace are only
    extended. *)
Theorem download_is_confined (rss_url : pystr) (limit : option Z) (w : world) :
  let w' := snd (download rss_url limit w) in
  dirs w' = {[ downloads_dir ]} ∪ dirs w /\
  (forall p, ~ in_downloads p -> files w' !! p = files w !! p) /\
  (forall p, is_Some (files w !! p) -> is_Some (files w' !! p)) /\
  stdout w `prefix_of` stdout w' /\
  calls w `prefix_of` calls w'.
Proof.
  unfold download_episodes_from_rss, bind at 1, makedirs. cbn zeta.
  match goal with |- context [for_each ?es _ ?w0] =>
    pose proof (for_each_extends es w0) as Hext end.
  exact Hext.
Qed.

End RunInvariants.

(** ** What a run costs *)

Section RunCost.

Variable feedparser_parse : pystr -> list entry.
Variable requests_get : list call -> pystr -> result (list N).
Variable whisper_create : list call -> file_content -> result pystr.

Local Abbreviation process := (process_entry requests_get whisper_create).
Local Abbreviation download :=
  (download_episodes_from_rss feedparser_parse requests_get whisper_create).
Local Abbreviation gets cs := (length (List.filter is_get cs)).
Local Abbreviation whispers cs := (length (List.filter is_whisper cs)).
Local Abbreviation audio_episodes es := (length (List.filter takes_audio_branch es)).

Lemma process_entry_calls (e : entry) (w : world) :
  exists new,
    calls (snd (process e w)) = calls w ++ new /\
    (whispers new <= gets new)%nat /\
    (gets new <= audio_episodes [e])%nat /\
    (forall r, fst (process e w) = Ok r ->
       gets new = audio_episodes [e] /\ whispers new = audio_episodes [e]).
Proof.
  cbn [List.filter].
  destruct (process_entry_cases requests_get whisper_create e w)
    as [(-> & ex & ->)
       | [(-> & p & c & ms & Hp & ->)
       | [(-> & ms & ->)
       | [(-> & ex & ms & url & ->)
       | [(-> & p1 & c1 & p2 & c2 & ms & url & Hp1 & Hp2 & ->)
       | (-> & p & c & ms & url & Hp & ->)]]]]]; cbn [fst snd calls].
  - exists []. by rewrite app_nil_r.
  - exists []. by rewrite app_nil_r.
  - exists []. by rewrite app_nil_r.
  - eexists. split; [done |]. cbn. repeat split; [lia | lia | done].
  - eexists. split; [done |]. cbn. repeat split; lia.
  - eexists. split; [done |]. cbn. repeat split; lia.
Qed.

Lemma for_each_calls (es : list entry) (w : world) :
  exists new,
    calls (snd (for_each es process w)) = calls w ++ new /\
    (whispers new <= gets new)%nat /\
    (gets new <= audio_episodes es)%nat /\
    (forall r, fst (for_each es process w) = Ok r ->
       gets new = audio_episodes es /\ whispers new = audio_episodes es).
Proof.
  revert w. induction es as [|e es IH]; intros w.
  - exists []. cbn. by rewrite app_nil_r.
  - cbn [for_each]. unfold bind at 1 2.
    destruct (process_entry_calls e w) as (new1 & Hc1 & Hw1 & Hg1 & Hok1).
    change (e :: es) with ([e] ++ es). rewrite List.filter_app, length_app.
    destruct (process e w) as [[[]|ex] w1]; cbn [fst snd] in *.
    + destruct (IH w1) as (new2 & Hc2 & Hw2 & Hg2 & Hok2).
      destruct (Hok1 tt eq_refl) as [Hg1' Hw1'].
      exists (new1 ++ new2). rewrite Hc2, Hc1, app_assoc.
      rewrite !List.filter_app, !length_app. split; [done |].
      split; [lia |]. split; [lia |].
      intros r Hr. destruct (Hok2 r Hr). lia.
    + exists new1. split; [done |]. split; [lia |]. split; [lia | done].
Qed.

(** X12. However a run ends, each transcription call follows a download of
    its own, and there are no more downloads than selected episodes that
    pass the lookups of lines 48 and 49, lack embedded text and carry an
    audio URL: episodes with embedded text cost no call. *)
Theorem download_call_budget (rss_url : pystr) (limit : option Z) (w : world) :
  let episodes := episodes_of feedparser_parse rss_url (default default_limit limit) in
  let w' := snd (download rss_url limit w) in
  exists new,
    calls w' = calls w ++ new /\
    (whispers new <= gets new)%nat /\
    (gets new <= audio_episodes episodes)%nat /\
    (audio_episodes episodes <= length episodes)%nat.
Proof.
  cbn zeta. unfold download_episodes_from_rss, bind at 1, makedirs.
  match goal with |- context [for_each ?es _ ?w0] =>
    destruct (for_each_calls es w0) as (new & Hnew & Hw & Hg & _) end.
  exists new. repeat split; [done .. |]. apply List.filter_length_le.
Qed.

(** X13. A run that ends normally has made exactly one download and exactly
    one transcription call for each selected episode that lacks embedded
    text and carries an audio URL. *)
Theorem download_calls_exact
    (rss_url : pystr) (limit : option Z) (w w' : world) (r : unit) :
  download rss_url limit w = (Ok r, w') ->
  let episodes := episodes_of feedparser_parse rss_url (default default_limit limit) in
  exists new,
    calls w' = calls w ++ new /\
    gets new = audio_episodes episodes /\
    whispers new = audio_episodes episodes.
Proof.
  unfold download_episodes_from_rss, bind at 1, makedirs. intros Hrun. cbn zeta.
  match type of Hrun with for_each ?es _ ?w0 = _ =>
    destruct (for_each_calls es w0) as (new & Hnew & _ & _ & Hok) end.
  rewrite Hrun in Hnew, Hok. cbn [fst snd calls] in *.
  exists new. split; [done |]. by apply (Hok r).
Qed.

(** X14. A feed without entries and the limit 0 both make the run a no-op
    apart from the directory: it returns normally, creates [downloads], and
    neither prints nor writes nor calls anything. *)
Theorem download_nothing_to_do (rss_url : pystr) (limit : option Z) (w : world) :
  feedparser_parse rss_url = [] \/ limit = Some 0%Z ->
  download rss_url limit w =
    (Ok tt, World (files w) ({[ downloads_dir ]} ∪ dirs w) (stdout w) (calls w)).
Proof.
  intros Hnone. unfold download_episodes_from_rss, episodes_of.
  assert (slice_to (feedparser_parse rss_url) (default default_limit limit) = []) as ->; [| done].
  destruct Hnone as [-> | ->]; [apply take_nil |].
  rewrite slice_to_nonneg by done. by rewrite Nat.min_0_r.
Qed.

(** X15. With a negative limit L the loop runs over the feed without its
    last |L| entries (over nothing when the feed has no more than |L|), and a
    run that ends normally has printed one outcome line for each of them. *)
Theorem download_negative_limit
    (rss_url : pystr) (limit : Z) (w w' : world) (r : unit) :
  (limit < 0)%Z ->
  download rss_url (Some limit) w = (Ok r, w') ->
  let entries := feedparser_parse rss_url in
  let n := (length entries - Z.to_nat (- limit))%nat in
  episodes_of feedparser_parse rss_url limit = take n entries /\
  exists new,
    stdout w' = stdout w ++ new /\
    length (List.filter is_outcome new) = n.
Proof.
  intros Hlimit (new & Hout & Hrep)%download_outcomes entries n.
  cbn [from_option id] in Hrep.
  assert (episodes_of feedparser_parse rss_url limit = take n entries) as Heps
    by (by apply slice_to_negative).
  split; [done |]. exists new. split; [done |].
  rewrite <- (Forall2_length _ _ _ Hrep), Heps, length_take. subst n. lia.
Qed.

End RunCost.

Lemma download_calls_exact_witness :
  exists new,
    calls (snd (download_episodes_from_rss three_episodes serve_audio whisper_down
                  (lit "https://example.com/feed.xml") None empty_world)) = [] ++ new /\
    length (List.filter is_get new) = 1%nat /\
    length (List.filter is_whisper new) = 1%nat.
Proof.
  apply (download_calls_exact three_episodes serve_audio whisper_down
           (lit "https://example.com/feed.xml") None empty_world
           (snd (download_episodes_from_rss three_episodes serve_audio whisper_down
                   (lit "https://example.com/feed.xml") None empty_world)) tt).
  vm_compute. reflexivity.
Defined.

Lemma download_nothing_to_do_witness :
  download_episodes_from_rss three_episodes serve_audio whisper_down
    (lit "https://example.com/feed.xml") (Some 0%Z) empty_world =
  (Ok tt, World ∅ ({[ downloads_dir ]} ∪ ∅) [] []).
Proof.
  apply (download_nothing_to_do three_episodes serve_audio whisper_down
           (lit "https://example.com/feed.xml") (Some 0%Z) empty_world).
  right. reflexivity.
Defined.

Lemma download_negative_limit_witness :
  episodes_of three_episodes (lit "https://example.com/feed.xml") (-1) =
    [episode_with_text; episode_with_audio] /\
  exists new,
    stdout (snd (download_episodes_from_rss three_episodes serve_audio whisper_down
                   (lit "https://example.com/feed.xml") (Some (-1)%Z) empty_world)) =
      [] ++ new /\
    length (List.filter is_outcome new) = 2%nat.
Proof.
  apply (download_negative_limit three_episodes serve_audio whisper_down
           (lit "https://example.com/feed.xml") (-1) empty_world
           (snd (download_episodes_from_rss three_episodes serve_audio whisper_down
                   (lit "https://example.com/feed.xml") (Some (-1)%Z) empty_world)) tt).
  - lia.
  - vm_compute. reflexivity.
Defined.

(** ** The printed lines *)

(** X17. A printed line tells which message it is: two messages with the
    same text are the same message, with one exception, the Whisper-error
    line, which joins title and error text with [": "] and so only fixes the
    joined text. *)
Theorem render_determines_message (m1 m2 : message) :
  render m1 = render m2 ->
  m1 = m2 \/
  exists t1 e1 t2 e2,
    m1 = MsgWhisperError t1 e1 /\
    m2 = MsgWhisperError t2 e2 /\
    t1 ++ lit ": " ++ e1 = t2 ++ lit ": " ++ e2.
Proof.
  destruct m1 as [| |p1|t1|p1|p1|t1 e1|t1|], m2 as [| |p2|t2|p2|p2|t2 e2|t2|];
    cbn [render]; intros Hsame;
    try (left; reflexivity);
    try (vm_compute in Hsame; discriminate Hsame);
    try (do 2 apply app_inv_head in Hsame; left; by rewrite Hsame).
  right. do 2 apply app_inv_head in Hsame. by eexists _, _, _, _.
Qed.

Lemma render_determines_message_witness :
  MsgNoAudio (lit "Ep_3") = MsgNoAudio (lit "Ep_3") \/
  exists t1 e1 t2 e2,
    MsgNoAudio (lit "Ep_3") = MsgWhisperError t1 e1 /\
    MsgNoAudio (lit "Ep_3") = MsgWhisperError t2 e2 /\
    t1 ++ lit ": " ++ e1 = t2 ++ lit ": " ++ e2.
Proof.
  apply (render_determines_message (MsgNoAudio (lit "Ep_3")) (MsgNoAudio (lit "Ep_3"))).
  reflexivity.
Defined.

(** ** The classification prompt *)

Lemma split_at_first (c : N) (a1 a2 b1 b2 : pystr) :
  c ∉ a1 -> c ∉ a2 -> a1 ++ c :: b1 = a2 ++ c :: b2 -> a1 = a2 /\ b1 = b2.
Proof.
  revert a2. induction a1 as [|x a1 IH]; intros [|y a2] H1 H2 Heq; cbn in Heq.
  - by injection Heq.
  - injection Heq as <- _. by apply not_elem_of_cons in H2 as [? _].
  - injection Heq as -> _. by apply not_elem_of_cons in H1 as [? _].
  - injection Heq as -> Heq.
    apply not_elem_of_cons in H1 as [_ H1]. apply not_elem_of_cons in H2 as [_ H2].
    destruct (IH a2 H1 H2 Heq) as [-> ->]. done.
Qed.

(** X18. The user message of the classification request keeps title and
    summary apart: when the titles hold no line break (a line read from
    standard input never does), equal prompts come from equal titles and
    equal summaries. *)
Theorem user_prompt_injective (title1 summary1 title2 summary2 : pystr) :
  newline ∉ title1 ->
  newline ∉ title2 ->
  user_prompt title1 summary1 = user_prompt title2 summary2 ->
  title1 = title2 /\ summary1 = summary2.
Proof.
  intros H1 H2 Heq. unfold user_prompt in Heq.
  apply app_inv_head in Heq. cbn [app] in Heq.
  apply split_at_first in Heq as [-> Heq]; [| done ..].
  apply app_inv_head in Heq.
  change (newline :: newline :: ?x) with ([newline; newline] ++ x) in Heq.
  by apply app_inv_tail in Heq.
Qed.

Lemma user_prompt_injective_witness :
  lit "Sleep" = lit "Sleep" /\ lit "On naps" = lit "On naps".
Proof.
  apply (user_prompt_injective (lit "Sleep") (lit "On naps") (lit "Sleep") (lit "On naps")).
  - apply (bool_decide_unpack _). vm_compute. reflexivity.
  - apply (bool_decide_unpack _). vm_compute. reflexivity.
  - reflexivity.
Defined.
